(** * repoze.bfg.workflow.statemachine: the finite state machine engine

    A shallow embedding of [StateMachine] (statemachine.py) and the
    properties of its transition table, lookup, guard/callback pipeline
    and introspection queries.

    Modelling conventions.
    - Python values that the engine compares or stores (state names,
      transition names, metadata values) are [value]s: [None], strings
      and integers, compared with structural equality as Python's [==]
      does on them.
    - A context is a plain object: a finite map from attribute names to
      values.  [getattr] with a default reads it, [setattr] writes it.
    - Guards and callbacks are caller-supplied callables.  A
      transition dictionary holds a reference to its
      callback, so callables are referred to by name and their behaviour
      is given by an interpretation [behaviour]: called on the context
      and the transition dictionary, a callable may modify the context
      and either returns or raises.  Callables do not modify the state
      machine's own tables.
    - Methods that touch the context run in the monad [M]: the state is
      the context together with the log of the callables invoked so far,
      the result is a returned value or a raised exception. *)

From stdpp Require Import gmap strings list fin_maps.

Set Default Proof Using "Type".

(** ** Values *)

Inductive value : Type :=
  | VNone
  | VStr (s : string)
  | VInt (n : Z).

#[global] Instance value_eq_dec : EqDecision value.
Proof. solve_decision. Defined.

Definition value_code (v : value) : option (string + Z) :=
  match v with
  | VNone => None
  | VStr s => Some (inl s)
  | VInt n => Some (inr n)
  end.

Definition value_decode (c : option (string + Z)) : value :=
  match c with
  | None => VNone
  | Some (inl s) => VStr s
  | Some (inr n) => VInt n
  end.

#[global] Instance value_countable : Countable value.
Proof.
  apply (inj_countable' value_code value_decode).
  by intros [].
Defined.

(** ** Transition dictionaries, contexts, exceptions *)

(** A reference to a module-level callable. *)
Definition callable : Type := string.

(** The dictionary built by [add_transition]: the four reserved keys and
    the caller's extra keys. *)
Record transition : Type := Transition {
  t_name : value;
  t_from_state : value;
  t_to_state : value;
  t_callback : option callable;
  t_extra : gmap string value
}.

#[global] Instance transition_eq_dec : EqDecision transition.
Proof. solve_decision. Defined.

Abbreviation context := (gmap string value).
Abbreviation metadata := (gmap string value).

(** The two messages of [StateMachineError] keep their arguments instead
    of formatting them. *)
Inductive sm_message : Type :=
  | NoTransitionUsing (state transition_name : value)
  | NoTransitionTo (from_state to_state : value).

Inductive exn : Type :=
  | StateMachineError (msg : sm_message)
  | KeyError (key : value)
  | Raised (cls : string) (msg : string).

(** ** The monad of context-touching code *)

Inductive outcome (A : Type) : Type :=
  | Returned (a : A)
  | Raises (e : exn).
Arguments Returned {A} a.
Arguments Raises {A} e.

(** One entry per call [f(context, transition)]. *)
Record call_event : Type := Call {
  call_fn : callable;
  call_arg : transition
}.

Record world : Type := World {
  obj : context;
  calls : list call_event
}.

Definition M (A : Type) : Type := world → outcome A * world.

#[global] Instance M_ret : MRet M := λ A a w, (Returned a, w).

#[global] Instance M_bind : MBind M := λ A B k m w,
  match m w with
  | (Returned a, w') => k a w'
  | (Raises e, w') => (Raises e, w')
  end.

Definition raise {A : Type} (e : exn) : M A := λ w, (Raises e, w).

(** [getattr(context, attr, default)] *)
Definition getattr (attr : string) (default : value) : M value :=
  λ w, (Returned (match obj w !! attr with Some v => v | None => default end), w).

(** [getattr(context, attr, _marker)]: [None] stands for the private
    sentinel object [_marker], which no attribute can hold. *)
Definition getattr_marker (attr : string) : M (option value) :=
  λ w, (Returned (obj w !! attr), w).

(** [setattr(context, attr, v)] *)
Definition setattr (attr : string) (v : value) : M unit :=
  λ w, (Returned (), World (<[attr := v]> (obj w)) (calls w)).

(** A [for] loop whose body may raise. *)
Fixpoint for_each {A : Type} (l : list A) (body : A → M unit) : M unit :=
  match l with
  | [] => mret ()
  | x :: rest => body x;; for_each rest body
  end.

(** ** The state machine *)

Record StateMachine : Type := MkStateMachine {
  _transitions : list transition;
  _state_data : gmap value metadata;
  _state_order : list value;
  state_attr : string;
  initializer : option callable;
  initial_state : value
}.

(** [__init__]; [transitions] is [None] for the default argument. *)
Definition new_StateMachine (state_attr : string)
    (transitions : option (list transition)) (initial_state : value)
    (initializer : option callable) : StateMachine :=
  let transitions :=
    match transitions with None => [] | Some l => l end in
  {| _transitions := transitions;
     _state_data := ∅;
     _state_order := [];
     state_attr := state_attr;
     initializer := initializer;
     initial_state := initial_state |}.

Definition add_state_info (self : StateMachine) (state_name : value)
    (kw : metadata) : StateMachine :=
  let order :=
    if decide (state_name ∈ _state_order self) then _state_order self
    else _state_order self ++ [state_name] in
  let data :=
    match _state_data self !! state_name with
    | Some _ => _state_data self
    | None => <[state_name := ∅]> (_state_data self)
    end in
  (* dict.update: the keys of [kw] win *)
  let data := alter (λ old, kw ∪ old) state_name data in
  {| _transitions := _transitions self;
     _state_data := data;
     _state_order := order;
     state_attr := state_attr self;
     initializer := initializer self;
     initial_state := initial_state self |}.

(** The reserved keys are assigned after [transition = kw], so they
    replace any entry of [kw] with the same key. *)
Definition reserved_keys : list string :=
  ["name"; "from_state"; "to_state"; "callback"].

Definition add_transition (self : StateMachine) (transition_name : value)
    (from_state to_state : value) (callback : option callable)
    (kw : metadata) : StateMachine :=
  let self := add_state_info self from_state ∅ in
  let self := add_state_info self to_state ∅ in
  let transition :=
    {| t_name := transition_name;
       t_from_state := from_state;
       t_to_state := to_state;
       t_callback := callback;
       t_extra := foldr delete kw reserved_keys |} in
  {| _transitions := _transitions self ++ [transition];
     _state_data := _state_data self;
     _state_order := _state_order self;
     state_attr := state_attr self;
     initializer := initializer self;
     initial_state := initial_state self |}.

(** The lookup loop of [execute]: the first dictionary whose
    [(from_state, name)] equals [si]. *)
Fixpoint find_transition (transitions : list transition)
    (si : value * value) : option transition :=
  match transitions with
  | [] => None
  | transition :: rest =>
      let match_ := (t_from_state transition, t_name transition) in
      if decide (match_ = si) then Some transition
      else find_transition rest si
  end.

(** ** Queries *)

Definition state_of (self : StateMachine) : M value :=
  getattr (state_attr self) (initial_state self).

(** [from_state] is [VNone] for the default argument. *)
Definition transitions (self : StateMachine) (from_state : value)
    : M (list transition) :=
  from_state ←
    (if decide (from_state = VNone) then state_of self else mret from_state);
  mret (filter (λ transition, from_state = t_from_state transition)
          (_transitions self)).

(** The dictionary [D] built for each state by [state_info]. *)
Record descriptor : Type := Descriptor {
  d_name : value;
  d_transitions : list transition;
  d_data : metadata;
  d_initial : bool;
  d_current : bool;
  d_title : value
}.

Definition append_transition (D : descriptor) (transition : transition)
    : descriptor :=
  {| d_name := d_name D;
     d_transitions := d_transitions D ++ [transition];
     d_data := d_data D;
     d_initial := d_initial D;
     d_current := d_current D;
     d_title := d_title D |}.

(** The inner loop of [state_info] over [self._transitions]. *)
Definition collect_transitions (from_state state_name : value)
    (transitions : list transition) (D : descriptor) : descriptor :=
  fold_left
    (λ D transition,
       if decide (t_from_state transition = from_state
                  ∧ t_to_state transition = state_name)
       then append_transition D transition
       else D)
    transitions D.

(** The body of the outer loop; [self._state_data[state_name]] raises
    [KeyError] on a missing key. *)
Definition state_info_body (self : StateMachine)
    (context_state from_state : value) (L : list descriptor)
    (state_name : value) : M (list descriptor) :=
  match _state_data self !! state_name with
  | None => raise (KeyError state_name)
  | Some state_data =>
      let D :=
        {| d_name := state_name;
           d_transitions := [];
           d_data := state_data;
           d_initial := bool_decide (state_name = initial_state self);
           d_current := bool_decide (state_name = context_state);
           d_title :=
             match state_data !! "title" with
             | Some title => title
             | None => state_name
             end |} in
      let D :=
        collect_transitions from_state state_name (_transitions self) D in
      mret (L ++ [D])
  end.

Fixpoint for_fold {A B : Type} (l : list A) (acc : B) (body : B → A → M B)
    : M B :=
  match l with
  | [] => mret acc
  | x :: rest => acc ← body acc x; for_fold rest acc body
  end.

Definition state_info (self : StateMachine) (from_state : value)
    : M (list descriptor) :=
  context_state ← state_of self;
  let from_state :=
    if decide (from_state = VNone) then context_state else from_state in
  for_fold (_state_order self) []
    (state_info_body self context_state from_state).

(** ** Execution *)

Section Engine.

(** What each callable does when called as [f(context, transition)]:
    the context it leaves, and the exception it raises, if any. *)
Variable behaviour : callable → context → transition → context * option exn.

Definition invoke (f : callable) (arg : transition) : M unit :=
  λ w,
    let '(ctx, r) := behaviour f (obj w) arg in
    let w' := World ctx (calls w ++ [Call f arg]) in
    match r with
    | None => (Returned (), w')
    | Some e => (Raises e, w')
    end.

(** [if guards: for guard in guards: guard(context, found)] *)
Definition run_guards (guards : list callable) (found : transition)
    : M unit :=
  match guards with
  | [] => mret ()
  | _ => for_each guards (λ guard, invoke guard found)
  end.

(** [callback = found['callback']] and its call when it is not [None] *)
Definition run_callback (found : transition) : M unit :=
  match t_callback found with
  | Some callback => invoke callback found
  | None => mret ()
  end.

Definition execute (self : StateMachine) (transition_name : value)
    (guards : list callable) : M unit :=
  state ← getattr_marker (state_attr self);
  let state :=
    match state with None => initial_state self | Some s => s end in
  let si := (state, transition_name) in
  match find_transition (_transitions self) si with
  | None =>
      raise (StateMachineError (NoTransitionUsing state transition_name))
  | Some found =>
      run_guards guards found;;
      run_callback found;;
      setattr (state_attr self) (t_to_state found)
  end.

Fixpoint transition_to_state_loop (self : StateMachine)
    (from_state to_state : value) (guards : list callable)
    (state_info : list descriptor) : M unit :=
  match state_info with
  | [] =>
      raise (StateMachineError (NoTransitionTo from_state to_state))
  | info :: rest =>
      if decide (d_name info = to_state) then
        match d_transitions info with
        | transition :: _ => execute self (t_name transition) guards
        | [] => transition_to_state_loop self from_state to_state guards rest
        end
      else transition_to_state_loop self from_state to_state guards rest
  end.

Definition transition_to_state (self : StateMachine) (to_state : value)
    (guards : list callable) (skip_same : bool) : M unit :=
  from_state ← state_of self;
  if bool_decide (from_state = to_state) && skip_same then mret ()
  else
    state_info ← state_info self VNone;
    transition_to_state_loop self from_state to_state guards state_info.

End Engine.

(** ** Machines that the class can build

    Every [StateMachine] object comes from [__init__] followed by calls of
    [add_state_info] and [add_transition]. *)

Inductive constructed : StateMachine → Prop :=
  | constructed_new state_attr transitions initial_state initializer :
      constructed
        (new_StateMachine state_attr transitions initial_state initializer)
  | constructed_add_state_info self state_name kw :
      constructed self →
      constructed (add_state_info self state_name kw)
  | constructed_add_transition self transition_name from_state to_state
        callback kw :
      constructed self →
      constructed
        (add_transition self transition_name from_state to_state callback kw).

(** The invariant of the two state tables. *)
Definition tables_ok (self : StateMachine) : Prop :=
  NoDup (_state_order self)
  ∧ ∀ state_name,
      state_name ∈ _state_order self ↔ is_Some (_state_data self !! state_name).

(** ** Notions used in the statements *)

(** The key [(from_state, name)] that [execute] compares. *)
Definition key_of (T : transition) : value * value :=
  (t_from_state T, t_name T).

(** [T] goes from state [A] to state [B]. *)
Definition goes (A B : value) (T : transition) : Prop :=
  t_from_state T = A ∧ t_to_state T = B.

#[global] Instance goes_dec A B T : Decision (goes A B T).
Proof. unfold goes. apply _. Defined.

(** The current state of a context, as a value. *)
Definition current_state (self : StateMachine) (ctx : context) : value :=
  default (initial_state self) (ctx !! state_attr self).

(** The log entries of calling each of [fs] on the context and [T]. *)
Definition calls_of (fs : list callable) (T : transition) : list call_event :=
  (λ f, Call f T) <$> fs.


(** The descriptor that [state_info] is specified to produce for
    [state_name]: written from the description of the query, to be
    compared with the loops of [state_info]. *)
Definition expected_descriptor (self : StateMachine)
    (context_state resolved_from_state state_name : value) : descriptor :=
  let data := _state_data self !!! state_name in
  {| d_name := state_name;
     d_transitions :=
       filter (goes resolved_from_state state_name) (_transitions self);
     d_data := data;
     d_initial := bool_decide (state_name = initial_state self);
     d_current := bool_decide (state_name = context_state);
     d_title := default state_name (data !! "title") |}.

(** The from-state that [state_info] and [transitions] resolve: the
    explicit argument, or the context's current state when it is [None]. *)
Definition resolved_from_state (self : StateMachine) (ctx : context)
    (from_state : value) : value :=
  if decide (from_state = VNone) then current_state self ctx else from_state.

(** What the loop of [transition_to_state] does on the descriptors that
    [state_info] returns. *)
Definition targeted behaviour (self : StateMachine)
    (from_state to_state : value) (guards : list callable) : M unit :=
  if decide (to_state ∈ _state_order self) then
    match filter (goes from_state to_state) (_transitions self) with
    | T :: _ => execute behaviour self (t_name T) guards
    | [] => raise (StateMachineError (NoTransitionTo from_state to_state))
    end
  else raise (StateMachineError (NoTransitionTo from_state to_state)).

(** Every transition added with [add_transition] has both ends in the
    state order; transitions handed to the constructor need not. *)
Definition endpoints_registered (self : StateMachine) : Prop :=
  Forall
    (λ T, t_from_state T ∈ _state_order self ∧ t_to_state T ∈ _state_order self)
    (_transitions self).

(** ** Example machines and callables *)

Module Examples.

(** The publication workflow: [submit], [approve] (whose callback records
    the publication date) and [reject]. *)
Definition publication : StateMachine :=
  let sm := new_StateMachine "state" None (VStr "draft") None in
  let sm :=
    add_transition sm (VStr "submit") (VStr "draft") (VStr "pending") None ∅ in
  let sm :=
    add_transition sm (VStr "approve") (VStr "pending") (VStr "published")
      (Some "set_published_at") ∅ in
  add_transition sm (VStr "reject") (VStr "pending") (VStr "draft") None ∅.

Definition go_b : transition :=
  Transition (VStr "go") (VStr "a") (VStr "b") (Some "on_b") ∅.



Definition shadowed_loop : StateMachine :=
  let sm := new_StateMachine "state" None (VStr "a") None in
  let sm :=
    add_transition sm (VStr "go") (VStr "a") (VStr "c") (Some "on_c") ∅ in
  add_transition sm (VStr "go") (VStr "a") (VStr "a") (Some "on_loop") ∅.

(** A machine with a catch-all looking record [(a, None)] next to a named
    one. *)
Definition with_none_name : StateMachine :=
  let sm := new_StateMachine "state" None (VStr "a") None in
  let sm := add_transition sm VNone (VStr "a") (VStr "z") None ∅ in
  add_transition sm (VStr "go") (VStr "a") (VStr "b") (Some "on_b") ∅.

(** A machine whose only transition was handed to the constructor: its
    states were never registered. *)
Definition preloaded : StateMachine :=
  new_StateMachine "state"
    (Some [Transition (VStr "go") (VStr "a") (VStr "b") None ∅])
    (VStr "a") None.

(** A machine with a self-loop. *)
Definition looping : StateMachine :=
  let sm := new_StateMachine "state" None (VStr "a") None in
  let sm := add_transition sm (VStr "stay") (VStr "a") (VStr "a")
              (Some "on_loop") ∅ in
  add_transition sm (VStr "go") (VStr "a") (VStr "b") None ∅.

Definition ValueError (msg : string) : exn := Raised "ValueError" msg.

(** The callables of the examples:
    - [set_published_at] stores a date on the context;
    - [veto] raises and leaves the context alone;
    - [hijack] assigns the state attribute itself, then raises;
    - every other name returns without touching the context. *)
Definition behaviour (f : callable) (ctx : context) (T : transition)
    : context * option exn :=
  if decide (f = "set_published_at") then
    (<["published_at" := VInt 20240101]> ctx, None)
  else if decide (f = "veto") then (ctx, Some (ValueError "vetoed"))
  else if decide (f = "hijack") then
    (<["state" := VStr "hacked"]> ctx, Some (ValueError "failed"))
  else (ctx, None).

(** A context that was never assigned a state, and contexts in a given
    state. *)
Definition fresh : world := World ∅ [].
Definition in_state (s : string) : world := World {[ "state" := VStr s ]} [].


End Examples.

(** ** Initialization *)

Section Initializer.

(** What each initializer does when called as [f(context)]. *)
Variable init_behaviour : callable → context → context * option exn.

(** [self.initializer(context)]; the call takes no transition, so it is
    not an entry of the log of [f(context, transition)] calls. *)
Definition invoke_initializer (f : callable) : M unit :=
  λ w,
    let '(ctx, r) := init_behaviour f (obj w) in
    let w' := World ctx (calls w) in
    match r with
    | None => (Returned (), w')
    | Some e => (Raises e, w')
    end.

Definition initialize (self : StateMachine) : M unit :=
  setattr (state_attr self) (initial_state self);;
  match initializer self with
  | Some f => invoke_initializer f
  | None => mret ()
  end.

End Initializer.

(** ** Machines assembled from an empty transition list

    [__init__] with the default [transitions=None], then calls of
    [add_state_info] and [add_transition]. *)

Inductive assembled : StateMachine → Prop :=
  | assembled_new state_attr initial_state initializer :
      assembled (new_StateMachine state_attr None initial_state initializer)
  | assembled_add_state_info self state_name kw :
      assembled self →
      assembled (add_state_info self state_name kw)
  | assembled_add_transition self transition_name from_state to_state
        callback kw :
      assembled self →
      assembled
        (add_transition self transition_name from_state to_state callback kw).

(** The value stored under key [k] of the metadata of [state_name]. *)
Definition metadata_at (self : StateMachine) (state_name : value)
    (k : string) : option value :=
  _state_data self !! state_name ≫= (λ m : metadata, m !! k).

(** The states that [add_transition] appends to a state order. *)
Definition new_endpoints (order : list value) (from_state to_state : value)
    : list value :=
  (if decide (from_state ∈ order) then [] else [from_state])
  ++ (if decide (to_state ∈ order ∨ to_state = from_state) then []
      else [to_state]).

(** ** More example machines and callables *)

Module Scenarios.

(** The initializers of the examples: [stamp] stores a creation date,
    [broken] raises and leaves the context alone; every other name
    returns without touching the context. *)
Definition init_behaviour (f : callable) (ctx : context)
    : context * option exn :=
  if decide (f = "stamp") then (<["created" := VInt 20240101]> ctx, None)
  else if decide (f = "broken") then
    (ctx, Some (Raised "RuntimeError" "no storage"))
  else (ctx, None).

(** The publication workflow with an initializer that fails. *)
Definition fragile : StateMachine :=
  let sm := new_StateMachine "state" None (VStr "draft") (Some "broken") in
  add_transition sm (VStr "submit") (VStr "draft") (VStr "pending") None ∅.

(** A context that holds a state and another attribute. *)
Definition titled (s : string) : world :=
  World {[ "state" := VStr s; "title" := VStr "Report" ]} [].

End Scenarios.

(** * Properties *)

(** ** Sequencing in [M] *)

Lemma bind_returned {A B : Type} (m : M A) (k : A → M B) w a w' :
  m w = (Returned a, w') → (m ≫= k) w = k a w'.
Proof. intros Hm. unfold mbind, M_bind. by rewrite Hm. Qed.


(** ** The lookup loop *)

Lemma find_transition_none transitions si :
  Forall (λ T, key_of T ≠ si) transitions →
  find_transition transitions si = None.
Proof.
  induction 1 as [|T rest Hne _ IH]; simpl; [done|].
  unfold key_of in Hne. by rewrite decide_False.
Qed.


Lemma find_transition_some transitions si T :
  find_transition transitions si = Some T →
  ∃ before after,
    transitions = before ++ T :: after
    ∧ Forall (λ U, key_of U ≠ si) before
    ∧ key_of T = si.
Proof.
  induction transitions as [|U rest IH]; simpl; [done|].
  destruct (decide ((t_from_state U, t_name U) = si)) as [Heq|Hne].
  - intros [= ->]. by exists [], rest.
  - intros (before & after & -> & Hbefore & HT)%IH.
    exists (U :: before), after. split_and!; [done| |done].
    by constructor.
Qed.

(** ** Reading the state *)

Lemma state_of_eval self w :
  state_of self w = (Returned (current_state self (obj w)), w).
Proof.
  unfold state_of, getattr, current_state.
  by destruct (obj w !! state_attr self).
Qed.

Lemma state_of_current self w A :
  state_of self w = (Returned A, w) ↔ current_state self (obj w) = A.
Proof. rewrite state_of_eval. split; [by intros [= ->] | by intros ->]. Qed.

Lemma current_state_setattr self ctx v :
  current_state self (<[state_attr self := v]> ctx) = v.
Proof. unfold current_state. by rewrite lookup_insert_eq. Qed.

Section Engine_facts.

Variable behaviour : callable → context → transition → context * option exn.

(** ** Calls and the log *)

Lemma invoke_calls f T w :
  calls (invoke behaviour f T w).2 = calls w ++ [Call f T].
Proof.
  unfold invoke. destruct (behaviour f (obj w) T) as [ctx [e|]]; done.
Qed.

Lemma run_guards_for_each guards found :
  run_guards behaviour guards found = for_each guards (λ guard, invoke behaviour guard found).
Proof. by destruct guards. Qed.

(** The guards that ran are a prefix of [guards], all of it when the loop
    returns; each was called on the transition that was found. *)
Lemma run_guards_calls guards found w :
  ∃ n,
    calls (run_guards behaviour guards found w).2
      = calls w ++ calls_of (take n guards) found
    ∧ ((run_guards behaviour guards found w).1 = Returned () → n = length guards)
    ∧ (∀ e, (run_guards behaviour guards found w).1 = Raises e → 0 < n ≤ length guards).
Proof.
  rewrite run_guards_for_each. revert w.
  induction guards as [|g guards IH]; intros w; simpl.
  - exists 0. split_and!; [by rewrite app_nil_r|done|done].
  - unfold mbind, M_bind.
    pose proof (invoke_calls g found w) as Hg.
    destruct (invoke behaviour g found w) as [[[]|e] w1]; simpl in *.
    + destruct (IH w1) as (n & Hcalls & Hret & Hraise).
      exists (S n). rewrite Hcalls, Hg. simpl.
      split_and!.
      * by rewrite <-(assoc_L (++)).
      * intros ?. f_equal. by apply Hret.
      * intros e He. specialize (Hraise e He). lia.
    + exists 1. rewrite Hg. simpl.
      split_and!; [done|done|]. intros _ _. lia.
Qed.


(** ** [execute] in terms of its steps *)

Lemma execute_eval self transition_name guards w :
  execute behaviour self transition_name guards w =
    let state := current_state self (obj w) in
    match find_transition (_transitions self) (state, transition_name) with
    | None =>
        (Raises (StateMachineError (NoTransitionUsing state transition_name)),
         w)
    | Some found =>
        (run_guards behaviour guards found;;
         run_callback behaviour found;;
         setattr (state_attr self) (t_to_state found)) w
    end.
Proof.
  unfold execute, current_state, getattr_marker.
  unfold mbind at 1, M_bind at 1. simpl.
  destruct (obj w !! state_attr self) as [v|]; simpl;
    by destruct (find_transition _ _).
Qed.

(** ** Callables that leave the state attribute alone *)




End Engine_facts.

(** ** Executing a registered transition *)



(** ** Executing an unregistered transition *)

(** C2.  When no registered dictionary has [(from_state, name)] equal to
    (current state, [transition_name]), [execute] raises
    [StateMachineError] and nothing else happens: the context is the one
    it was given and no callable was called.  Records named [None] are
    ordinary records here: with a transition name other than [None] they
    do not match, so they are no fallback. *)
Theorem execute_unregistered behaviour self transition_name guards w A :
  state_of self w = (Returned A, w) →
  Forall (λ T, key_of T ≠ (A, transition_name)) (_transitions self) →
  execute behaviour self transition_name guards w
    = (Raises (StateMachineError (NoTransitionUsing A transition_name)), w).
Proof.
  intros Hstate%state_of_current Hnone.
  rewrite execute_eval. simpl. rewrite Hstate.
  by rewrite find_transition_none.
Qed.

Lemma execute_unregistered_witness :
  execute Examples.behaviour Examples.with_none_name (VStr "jump") ["check"]
    (Examples.in_state "a")
    = (Raises (StateMachineError (NoTransitionUsing (VStr "a") (VStr "jump"))),
       Examples.in_state "a").
Proof.
  apply (execute_unregistered Examples.behaviour Examples.with_none_name
           (VStr "jump") ["check"] (Examples.in_state "a") (VStr "a")).
  - vm_compute. reflexivity.
  - vm_compute. repeat constructor; discriminate.
Defined.

(** ** The defaulting rule *)

(** C7.  [state_of] returns the state attribute of the context, or
    [initial_state] when the context has no such attribute; it returns in
    every case and leaves the context alone.  [execute] starts from the
    same value: its lookup key and its error message are built from it. *)
Theorem state_of_defaults behaviour self transition_name guards w :
  let state :=
    match obj w !! state_attr self with
    | Some v => v
    | None => initial_state self
    end in
  state_of self w = (Returned state, w)
  ∧ execute behaviour self transition_name guards w =
      match find_transition (_transitions self) (state, transition_name) with
      | None =>
          (Raises (StateMachineError (NoTransitionUsing state transition_name)),
           w)
      | Some found =>
          (run_guards behaviour guards found;;
           run_callback behaviour found;;
           setattr (state_attr self) (t_to_state found)) w
      end.
Proof.
  intros state. split.
  - apply state_of_eval.
  - apply execute_eval.
Qed.

(** ** Errors of guards and callbacks *)




(** ** [transition_to_state] on the current state *)

(** C5.  With [skip_same] true, asking for the state the context is
    already in returns at once: the context is untouched and no guard or
    callback is called. *)
Theorem transition_to_state_skip_same behaviour self to_state guards w :
  state_of self w = (Returned to_state, w) →
  transition_to_state behaviour self to_state guards true w = (Returned (), w).
Proof.
  intros Hstate. unfold transition_to_state.
  rewrite (bind_returned _ _ _ _ _ Hstate).
  by rewrite bool_decide_eq_true_2.
Qed.

Lemma transition_to_state_skip_same_witness :
  transition_to_state Examples.behaviour Examples.looping (VStr "a")
    ["veto"] true (Examples.in_state "a")
    = (Returned (), Examples.in_state "a").
Proof.
  apply (transition_to_state_skip_same Examples.behaviour Examples.looping
           (VStr "a") ["veto"] (Examples.in_state "a")).
  vm_compute. reflexivity.
Defined.

(** ** The state tables *)

Lemma add_state_info_order_known self state_name kw :
  state_name ∈ _state_order self →
  _state_order (add_state_info self state_name kw) = _state_order self.
Proof. intros Hin. unfold add_state_info. simpl. by rewrite decide_True. Qed.

Lemma add_state_info_order_fresh self state_name kw :
  state_name ∉ _state_order self →
  _state_order (add_state_info self state_name kw)
    = _state_order self ++ [state_name].
Proof. intros Hin. unfold add_state_info. simpl. by rewrite decide_False. Qed.

Lemma add_state_info_registers self state_name kw :
  state_name ∈ _state_order (add_state_info self state_name kw).
Proof.
  destruct (decide (state_name ∈ _state_order self)) as [Hin|Hin].
  - by rewrite add_state_info_order_known.
  - rewrite add_state_info_order_fresh by done. set_solver.
Qed.

(** The order only grows at its end. *)
Lemma add_state_info_order_prefix self state_name kw :
  _state_order self `prefix_of` _state_order (add_state_info self state_name kw).
Proof.
  destruct (decide (state_name ∈ _state_order self)) as [Hin|Hin].
  - by rewrite add_state_info_order_known.
  - rewrite add_state_info_order_fresh by done. by apply prefix_app_r.
Qed.

Lemma add_state_info_data self state_name kw :
  _state_data (add_state_info self state_name kw) !! state_name
    = Some (kw ∪ default ∅ (_state_data self !! state_name)).
Proof.
  unfold add_state_info. simpl. rewrite lookup_alter_eq.
  destruct (_state_data self !! state_name) as [old|] eqn:Hold; simpl.
  - by rewrite Hold.
  - by rewrite lookup_insert_eq.
Qed.

Lemma add_state_info_data_other self state_name kw other :
  other ≠ state_name →
  _state_data (add_state_info self state_name kw) !! other
    = _state_data self !! other.
Proof.
  intros Hne. unfold add_state_info. simpl.
  rewrite lookup_alter_ne by done.
  destruct (_state_data self !! state_name); [done|].
  by rewrite lookup_insert_ne.
Qed.

Lemma tables_ok_new state_attr transitions initial_state initializer :
  tables_ok (new_StateMachine state_attr transitions initial_state initializer).
Proof.
  split; simpl; [constructor|].
  intros s. rewrite lookup_empty. split.
  - by intros ?%not_elem_of_nil.
  - by intros [? ?].
Qed.

Lemma tables_ok_add_state_info self state_name kw :
  tables_ok self → tables_ok (add_state_info self state_name kw).
Proof.
  intros [Hnodup Hdom]. split.
  - destruct (decide (state_name ∈ _state_order self)) as [Hin|Hin].
    + by rewrite add_state_info_order_known.
    + rewrite add_state_info_order_fresh by done.
      apply NoDup_app. split_and!; [done| |apply NoDup_singleton].
      intros x Hx ->%list_elem_of_singleton. done.
  - intros s. destruct (decide (s = state_name)) as [->|Hne].
    + rewrite add_state_info_data. split; [eauto|].
      intros _. apply add_state_info_registers.
    + rewrite add_state_info_data_other by done. rewrite <-Hdom.
      destruct (decide (state_name ∈ _state_order self)) as [Hin|Hin].
      * by rewrite add_state_info_order_known.
      * rewrite add_state_info_order_fresh by done.
        rewrite elem_of_app, list_elem_of_singleton.
        split; [intros [?|?]; [done|congruence] | by left].
Qed.

Lemma tables_ok_add_transition self transition_name from_state to_state
    callback kw :
  tables_ok self →
  tables_ok
    (add_transition self transition_name from_state to_state callback kw).
Proof.
  intros Hok.
  pose proof (tables_ok_add_state_info _ to_state ∅
                (tables_ok_add_state_info _ from_state ∅ Hok)) as Hok'.
  exact Hok'.
Qed.

Lemma constructed_tables_ok self : constructed self → tables_ok self.
Proof.
  induction 1.
  - apply tables_ok_new.
  - by apply tables_ok_add_state_info.
  - by apply tables_ok_add_transition.
Qed.

(** [add_transition] registers both ends of the transition it adds. *)
Lemma add_transition_registers self transition_name from_state to_state
    callback kw :
  let self' :=
    add_transition self transition_name from_state to_state callback kw in
  from_state ∈ _state_order self' ∧ to_state ∈ _state_order self'.
Proof.
  intros self'.
  change (_state_order self') with
    (_state_order
       (add_state_info (add_state_info self from_state ∅) to_state ∅)).
  split.
  - eapply elem_of_prefix; [|apply add_state_info_order_prefix].
    apply add_state_info_registers.
  - apply add_state_info_registers.
Qed.

(** ** Registering states *)

(** C8.  On a machine built by the class, registering [state_name] twice
    with disjoint keyword arguments leaves one entry for it in the state
    order, where its first registration put it (where it already was, or
    at the end when the first of the two calls introduced it); the
    metadata of the state then holds both calls' pairs, on top of what it
    held before.  Registering the state again, any number of times with
    any arguments, leaves the state order as it is. *)
Theorem add_state_info_merges self state_name kw1 kw2
    (kws : list metadata) :
  constructed self →
  kw1 ##ₘ kw2 →
  let sm1 := add_state_info self state_name kw1 in
  let sm2 := add_state_info sm1 state_name kw2 in
  let old := default ∅ (_state_data self !! state_name) in
  _state_order sm2 = _state_order sm1
  ∧ _state_order sm1
      = (if decide (state_name ∈ _state_order self) then _state_order self
         else _state_order self ++ [state_name])
  ∧ NoDup (_state_order sm2)
  ∧ state_name ∈ _state_order sm2
  ∧ _state_data sm2 !! state_name = Some (kw2 ∪ (kw1 ∪ old))
  ∧ (∀ k v, kw1 !! k = Some v ∨ kw2 !! k = Some v →
            (kw2 ∪ (kw1 ∪ old)) !! k = Some v)
  ∧ _state_order
      (foldl (λ sm kw, add_state_info sm state_name kw) sm2 kws)
      = _state_order sm1.
Proof.
  intros Hbuilt Hdisj sm1 sm2 old.
  assert (Hin1 : state_name ∈ _state_order sm1)
    by apply add_state_info_registers.
  assert (Horder2 : _state_order sm2 = _state_order sm1)
    by by apply add_state_info_order_known.
  split_and!.
  - done.
  - unfold sm1. case_decide.
    + by apply add_state_info_order_known.
    + by apply add_state_info_order_fresh.
  - apply constructed_tables_ok.
    by do 2 apply constructed_add_state_info.
  - by rewrite Horder2.
  - unfold sm2. rewrite add_state_info_data.
    unfold sm1. by rewrite add_state_info_data.
  - intros k v [H1|H2].
    + rewrite lookup_union_r.
      * by apply lookup_union_Some_l.
      * by eapply map_disjoint_Some_l.
    + by apply lookup_union_Some_l.
  - rewrite <-Horder2.
    assert (Hin2 : state_name ∈ _state_order sm2) by by rewrite Horder2.
    clearbody sm2. clear -Hin2. revert sm2 Hin2.
    induction kws as [|kw kws IH]; intros sm Hin; simpl; [done|].
    rewrite IH.
    + by apply add_state_info_order_known.
    + by rewrite add_state_info_order_known.
Qed.

Lemma add_state_info_merges_witness :
  let sm2 :=
    add_state_info
      (add_state_info Examples.publication (VStr "pending")
         {[ "title" := VStr "Pending review" ]})
      (VStr "pending") {[ "rank" := VInt 2 ]} in
  _state_order sm2 = [VStr "draft"; VStr "pending"; VStr "published"]
  ∧ _state_data sm2 !! VStr "pending"
      = Some {[ "rank" := VInt 2; "title" := VStr "Pending review" ]}
  ∧ _state_order
      (foldl (λ sm kw, add_state_info sm (VStr "pending") kw) sm2
         [∅; {[ "title" := VStr "Pending" ]}])
      = [VStr "draft"; VStr "pending"; VStr "published"].
Proof.
  intros sm2.
  destruct (add_state_info_merges Examples.publication (VStr "pending")
              {[ "title" := VStr "Pending review" ]} {[ "rank" := VInt 2 ]}
              [∅; {[ "title" := VStr "Pending" ]}])
    as (Horder & _ & _ & _ & Hdata & _ & Hagain).
  - repeat apply constructed_add_transition. apply constructed_new.
  - apply map_disjoint_singleton_l_2. reflexivity.
  - split_and!.
    + exact Horder.
    + exact Hdata.
    + exact Hagain.
Defined.

(** ** The loops of [state_info] *)

Lemma collect_transitions_spec from_state state_name transitions D :
  collect_transitions from_state state_name transitions D
    = {| d_name := d_name D;
         d_transitions :=
           d_transitions D ++ filter (goes from_state state_name) transitions;
         d_data := d_data D;
         d_initial := d_initial D;
         d_current := d_current D;
         d_title := d_title D |}.
Proof.
  unfold collect_transitions. revert D.
  induction transitions as [|T rest IH]; intros D; simpl.
  - rewrite filter_nil, app_nil_r. by destruct D.
  - case_decide as HT.
    + rewrite IH, (filter_cons_True (goes from_state state_name)) by done.
      simpl. by rewrite <-(assoc_L (++)).
    + by rewrite IH, (filter_cons_False (goes from_state state_name)).
Qed.

Lemma state_info_body_spec self context_state from_state L state_name w :
  is_Some (_state_data self !! state_name) →
  state_info_body self context_state from_state L state_name w
    = (Returned
         (L ++ [expected_descriptor self context_state from_state state_name]),
       w).
Proof.
  intros [data Hdata]. unfold state_info_body, expected_descriptor.
  rewrite Hdata, collect_transitions_spec. simpl.
  rewrite (lookup_total_correct _ _ _ Hdata).
  by destruct (data !! "title").
Qed.

Lemma state_info_loop_spec self context_state from_state order L w :
  Forall (λ state_name, is_Some (_state_data self !! state_name)) order →
  for_fold order L (state_info_body self context_state from_state) w
    = (Returned
         (L ++ (expected_descriptor self context_state from_state <$> order)),
       w).
Proof.
  intros Horder. revert L.
  induction Horder as [|state_name order Hdata _ IH]; intros L; simpl.
  - by rewrite app_nil_r.
  - rewrite (bind_returned _ _ _ _ _
               (state_info_body_spec self _ _ L state_name w Hdata)).
    by rewrite IH, <-(assoc_L (++)).
Qed.

Lemma state_info_eval self from_state w :
  tables_ok self →
  state_info self from_state w
    = (Returned
         (expected_descriptor self (current_state self (obj w))
            (resolved_from_state self (obj w) from_state)
          <$> _state_order self),
       w).
Proof.
  intros [_ Hdom]. unfold state_info.
  rewrite (bind_returned _ _ _ _ _ (state_of_eval self w)).
  rewrite state_info_loop_spec; [done|].
  apply Forall_forall. intros s Hs. by apply Hdom.
Qed.

(** C9.  On a machine built by the class, [state_info] returns, and the
    list it returns has one descriptor per state of the state order, in
    that order.  The descriptor of a state holds its name, its
    accumulated metadata, whether it is the initial state, whether it is
    the context's current state, its title (the metadata's [title], or
    the name when there is none) and, as its transitions, the registered
    transitions from the resolved from-state to that state, in
    registration order.  The resolved from-state is the argument, or the
    context's current state when the argument is [None]. *)
Theorem state_info_descriptors self from_state w context_state :
  constructed self →
  state_of self w = (Returned context_state, w) →
  let resolved :=
    if decide (from_state = VNone) then context_state else from_state in
  ∃ L,
    state_info self from_state w = (Returned L, w)
    ∧ d_name <$> L = _state_order self
    ∧ L = expected_descriptor self context_state resolved <$> _state_order self
    ∧ Forall
        (λ D,
           d_transitions D
             = filter
                 (λ T, t_from_state T = resolved ∧ t_to_state T = d_name D)
                 (_transitions self)
           ∧ d_data D = default ∅ (_state_data self !! d_name D)
           ∧ d_initial D = bool_decide (d_name D = initial_state self)
           ∧ d_current D = bool_decide (d_name D = context_state)
           ∧ d_title D = default (d_name D) (d_data D !! "title"))
        L.
Proof.
  intros Hok%constructed_tables_ok Hstate%state_of_current resolved.
  eexists. split; [|split_and!; [|reflexivity|]].
  - rewrite state_info_eval by done.
    unfold resolved_from_state. rewrite Hstate. reflexivity.
  - rewrite <-list_fmap_compose. apply list_fmap_id.
  - apply Forall_fmap, Forall_true. intros state_name. simpl.
    split_and!; done.
Qed.

Lemma state_info_descriptors_witness :
  let submit :=
    Transition (VStr "submit") (VStr "draft") (VStr "pending") None ∅ in
  state_info Examples.publication VNone Examples.fresh
    = (Returned
         [Descriptor (VStr "draft") [] ∅ true true (VStr "draft");
          Descriptor (VStr "pending") [submit] ∅ false false (VStr "pending");
          Descriptor (VStr "published") [] ∅ false false (VStr "published")],
       Examples.fresh).
Proof.
  intros submit.
  destruct (state_info_descriptors Examples.publication VNone Examples.fresh
              (VStr "draft"))
    as (L & Hinfo & _ & HL & _).
  - repeat apply constructed_add_transition. apply constructed_new.
  - vm_compute. reflexivity.
  - rewrite Hinfo, HL. vm_compute. reflexivity.
Defined.

(** ** [transition_to_state] in terms of the tables *)

Lemma filter_first {A : Type} (P : A → Prop) `{!∀ x, Decision (P x)}
    (before : list A) (T : A) (after : list A) :
  Forall (λ U, ¬ P U) before →
  P T →
  filter P (before ++ T :: after) = T :: filter P after.
Proof.
  intros Hbefore HT.
  induction Hbefore as [|U rest HU _ IH]; simpl.
  - by rewrite filter_cons_True.
  - by rewrite filter_cons_False.
Qed.

Lemma filter_none {A : Type} (P : A → Prop) `{!∀ x, Decision (P x)}
    (l : list A) :
  Forall (λ U, ¬ P U) l → filter P l = [].
Proof.
  induction 1 as [|U rest HU _ IH]; [done|].
  by rewrite filter_cons_False.
Qed.

Lemma filter_cons_inv {A : Type} (P : A → Prop) `{!∀ x, Decision (P x)}
    (l : list A) (T : A) (others : list A) :
  filter P l = T :: others →
  ∃ before after,
    l = before ++ T :: after ∧ Forall (λ U, ¬ P U) before ∧ P T.
Proof.
  induction l as [|U rest IH]; [done|].
  destruct (decide (P U)) as [HU|HU].
  - rewrite filter_cons_True by done. intros [= -> _].
    by exists [], rest.
  - rewrite filter_cons_False by done.
    intros (before & after & -> & Hbefore & HT)%IH.
    exists (U :: before), after. split_and!; [done| |done].
    by constructor.
Qed.

Lemma transition_to_state_loop_spec behaviour self from_state to_state guards
    context_state order :
  transition_to_state_loop behaviour self from_state to_state guards
    (expected_descriptor self context_state from_state <$> order)
  = if decide (to_state ∈ order) then
      match filter (goes from_state to_state) (_transitions self) with
      | T :: _ => execute behaviour self (t_name T) guards
      | [] => raise (StateMachineError (NoTransitionTo from_state to_state))
      end
    else raise (StateMachineError (NoTransitionTo from_state to_state)).
Proof.
  induction order as [|state_name order IH].
  - destruct (decide (to_state ∈ [])) as [Hin|_]; [|done].
    by apply not_elem_of_nil in Hin.
  - rewrite fmap_cons.
    cbn [transition_to_state_loop expected_descriptor d_name d_transitions].
    rewrite IH. clear IH.
    destruct (decide (state_name = to_state)) as [->|Hname].
    + rewrite (decide_True (P := to_state ∈ to_state :: order))
        by apply list_elem_of_here.
      destruct (filter _ _) as [|T others]; [|done].
      by case_decide.
    + destruct (decide (to_state ∈ order)) as [Hin|Hin].
      * rewrite (decide_True (P := to_state ∈ state_name :: order)); [done|].
        by apply list_elem_of_further.
      * rewrite (decide_False (P := to_state ∈ state_name :: order)); [done|].
        intros [?|?]%elem_of_cons; congruence.
Qed.

Lemma transition_to_state_eval behaviour self to_state guards skip_same w :
  tables_ok self →
  (current_state self (obj w) = to_state → skip_same = false) →
  transition_to_state behaviour self to_state guards skip_same w
    = targeted behaviour self (current_state self (obj w)) to_state guards w.
Proof.
  intros Hok Hskip. unfold transition_to_state.
  rewrite (bind_returned _ _ _ _ _ (state_of_eval self w)).
  assert (bool_decide (current_state self (obj w) = to_state) && skip_same
          = false) as ->.
  { case_bool_decide; [|done]. by rewrite Hskip. }
  rewrite (bind_returned _ _ _ _ _ (state_info_eval self VNone w Hok)).
  unfold resolved_from_state. rewrite decide_True by done.
  by rewrite transition_to_state_loop_spec.
Qed.



(** ** Registered endpoints *)

Lemma endpoints_registered_new state_attr initial_state initializer :
  endpoints_registered
    (new_StateMachine state_attr None initial_state initializer).
Proof. constructor. Qed.

Lemma endpoints_registered_add_state_info self state_name kw :
  endpoints_registered self →
  endpoints_registered (add_state_info self state_name kw).
Proof.
  unfold endpoints_registered.
  change (_transitions (add_state_info self state_name kw))
    with (_transitions self).
  pose proof (add_state_info_order_prefix self state_name kw) as Hprefix.
  intros Hself. eapply Forall_impl; [exact Hself|].
  intros T [Hfrom Hto]. split; by eapply elem_of_prefix.
Qed.

Lemma endpoints_registered_add_transition self transition_name from_state
    to_state callback kw :
  endpoints_registered self →
  endpoints_registered
    (add_transition self transition_name from_state to_state callback kw).
Proof.
  intros Hself.
  pose proof (endpoints_registered_add_state_info _ to_state ∅
                (endpoints_registered_add_state_info _ from_state ∅ Hself))
    as Hboth.
  pose proof (add_transition_registers self transition_name from_state
                to_state callback kw) as [Hfrom Hto].
  apply Forall_app. split; [exact Hboth|].
  by repeat constructor.
Qed.

(** The constructor does not register the states of the transitions it
    is given: [state_info] lists no state for such a machine, and
    [transition_to_state] finds nothing to execute. *)
Lemma preloaded_states_unregistered :
  _state_order Examples.preloaded = []
  ∧ state_info Examples.preloaded VNone (Examples.in_state "a")
      = (Returned [], Examples.in_state "a")
  ∧ transition_to_state Examples.behaviour Examples.preloaded (VStr "b") []
      true (Examples.in_state "a")
      = (Raises (StateMachineError (NoTransitionTo (VStr "a") (VStr "b"))),
         Examples.in_state "a").
Proof. split_and!; vm_compute; reflexivity. Qed.

(** ** No direct transition *)

(** C6.  When the current state differs from the target and no registered
    transition goes from the current state to the target,
    [transition_to_state] raises [StateMachineError]; the context is the
    one it was given and no callable was called, so no transition, and no
    chain of transitions, was executed. *)
Theorem transition_to_state_unreachable behaviour self to_state guards
    skip_same w A :
  constructed self →
  state_of self w = (Returned A, w) →
  A ≠ to_state →
  Forall (λ T, ¬ goes A to_state T) (_transitions self) →
  transition_to_state behaviour self to_state guards skip_same w
    = (Raises (StateMachineError (NoTransitionTo A to_state)), w).
Proof.
  intros Hok%constructed_tables_ok Hstate%state_of_current Hne Hnone.
  rewrite transition_to_state_eval; [|done|by rewrite Hstate].
  rewrite Hstate. unfold targeted.
  rewrite (filter_none (goes A to_state)) by done.
  by case_decide.
Qed.

Lemma transition_to_state_unreachable_witness :
  transition_to_state Examples.behaviour Examples.publication
    (VStr "published") ["check"] true Examples.fresh
    = (Raises
         (StateMachineError (NoTransitionTo (VStr "draft") (VStr "published"))),
       Examples.fresh).
Proof.
  apply (transition_to_state_unreachable Examples.behaviour
           Examples.publication (VStr "published") ["check"] true
           Examples.fresh (VStr "draft")).
  - repeat apply constructed_add_transition. apply constructed_new.
  - vm_compute. reflexivity.
  - discriminate.
  - repeat constructor; intros [Hfrom Hto]; discriminate.
Defined.

(** ** Reaching a target state *)




(** ** Asking for the current state without [skip_same] *)




(** ** The publication workflow, step by step *)

(** A context without a state is in [draft]; [submit] moves it to
    [pending]; [approve] moves it to [published] and its callback leaves
    the date on the context; [submit] then fails, the context
    untouched. *)
Lemma publication_scenario :
  let approve :=
    Transition (VStr "approve") (VStr "pending") (VStr "published")
      (Some "set_published_at") ∅ in
  let w1 := World {[ "state" := VStr "pending" ]} [] in
  let w2 :=
    World {[ "state" := VStr "published"; "published_at" := VInt 20240101 ]}
      [Call "set_published_at" approve] in
  state_of Examples.publication Examples.fresh
    = (Returned (VStr "draft"), Examples.fresh)
  ∧ execute Examples.behaviour Examples.publication (VStr "submit") []
      Examples.fresh = (Returned (), w1)
  ∧ execute Examples.behaviour Examples.publication (VStr "approve") [] w1
      = (Returned (), w2)
  ∧ execute Examples.behaviour Examples.publication (VStr "submit") [] w2
      = (Raises
           (StateMachineError
              (NoTransitionUsing (VStr "published") (VStr "submit"))),
         w2).
Proof. split_and!; vm_compute; reflexivity. Qed.

(** * Further properties of the engine *)

(** ** [initialize] *)

(** X1.  [initialize] assigns the state before it calls the initializer: when
    the initializer raises without assigning the state attribute itself,
    the exception propagates as it is and the context is nevertheless in
    the initial state. *)
Theorem initialize_assigns_before_initializer init_behaviour self f w ctx e :
  initializer self = Some f →
  init_behaviour f (<[state_attr self := initial_state self]> (obj w))
    = (ctx, Some e) →
  ctx !! state_attr self = Some (initial_state self) →
  initialize init_behaviour self w = (Raises e, World ctx (calls w))
  ∧ state_of self (World ctx (calls w))
      = (Returned (initial_state self), World ctx (calls w)).
Proof.
  intros Hinit Hf Hattr. split.
  - unfold initialize, setattr. unfold mbind at 1, M_bind at 1.
    rewrite Hinit. unfold invoke_initializer. simpl. by rewrite Hf.
  - rewrite state_of_eval. unfold current_state. simpl. by rewrite Hattr.
Qed.

Lemma initialize_assigns_before_initializer_witness :
  let w' := World {[ "state" := VStr "draft" ]} [] in
  initialize Scenarios.init_behaviour Scenarios.fragile
    (Examples.in_state "pending")
    = (Raises (Raised "RuntimeError" "no storage"), w')
  ∧ state_of Scenarios.fragile w' = (Returned (VStr "draft"), w').
Proof.
  intros w'.
  refine (initialize_assigns_before_initializer Scenarios.init_behaviour
            Scenarios.fragile "broken" (Examples.in_state "pending")
            {[ "state" := VStr "draft" ]}
            (Raised "RuntimeError" "no storage") _ _ _).
  - reflexivity.
  - vm_compute. reflexivity.
  - vm_compute. reflexivity.
Defined.

(** X2.  Without an initializer, [initialize] returns whatever the context
    held: the state is then the initial state, every other attribute is
    as it was, nothing is called, and initializing again changes
    nothing. *)
Theorem initialize_without_initializer init_behaviour self w :
  initializer self = None →
  ∃ w1,
    initialize init_behaviour self w = (Returned (), w1)
    ∧ state_of self w1 = (Returned (initial_state self), w1)
    ∧ (∀ k, k ≠ state_attr self → obj w1 !! k = obj w !! k)
    ∧ calls w1 = calls w
    ∧ initialize init_behaviour self w1 = (Returned (), w1).
Proof.
  intros Hinit.
  exists (World (<[state_attr self := initial_state self]> (obj w)) (calls w)).
  unfold initialize. rewrite Hinit. split_and!.
  - done.
  - apply state_of_current. apply current_state_setattr.
  - intros k Hk. simpl. by rewrite lookup_insert_ne.
  - done.
  - unfold setattr, mbind, M_bind, mret, M_ret. simpl.
    by rewrite insert_insert_eq.
Qed.

Lemma initialize_without_initializer_witness :
  ∃ w1,
    initialize Scenarios.init_behaviour Examples.publication
      (Scenarios.titled "published") = (Returned (), w1)
    ∧ state_of Examples.publication w1 = (Returned (VStr "draft"), w1)
    ∧ (∀ k, k ≠ "state" → obj w1 !! k = obj (Scenarios.titled "published") !! k)
    ∧ calls w1 = []
    ∧ initialize Scenarios.init_behaviour Examples.publication w1
        = (Returned (), w1).
Proof.
  apply (initialize_without_initializer Scenarios.init_behaviour
           Examples.publication (Scenarios.titled "published")).
  reflexivity.
Defined.

(** ** Metadata *)

Lemma StateMachine_eq (a b : StateMachine) :
  _transitions a = _transitions b →
  _state_data a = _state_data b →
  _state_order a = _state_order b →
  state_attr a = state_attr b →
  initializer a = initializer b →
  initial_state a = initial_state b →
  a = b.
Proof. destruct a, b. simpl. by intros -> -> -> -> -> ->. Qed.

(** X3.  [add_state_info] updates and never replaces: under each key of the
    call the state's metadata holds the call's value, under every other
    key what it held before; the metadata of other states, the
    transitions and the settings of the machine are untouched. *)
Theorem add_state_info_updates self state_name kw :
  let self' := add_state_info self state_name kw in
  (∀ k,
     metadata_at self' state_name k
       = match kw !! k with
         | Some v => Some v
         | None => metadata_at self state_name k
         end)
  ∧ (∀ other, other ≠ state_name →
       _state_data self' !! other = _state_data self !! other)
  ∧ _transitions self' = _transitions self
  ∧ state_attr self' = state_attr self
  ∧ initial_state self' = initial_state self
  ∧ initializer self' = initializer self.
Proof.
  intros self'. split_and!; try done.
  - intros k. unfold metadata_at, self'. rewrite add_state_info_data. simpl.
    rewrite lookup_union.
    destruct (kw !! k) as [v|] eqn:Hk; simpl.
    + by destruct (default ∅ (_state_data self !! state_name) !! k).
    + rewrite (left_id_L None _).
      by destruct (_state_data self !! state_name).
  - intros other Hne. by apply add_state_info_data_other.
Qed.

(** X4.  Registering a state with the same arguments a second time changes
    nothing at all: the machine after two calls is the machine after
    one. *)
Theorem add_state_info_idempotent self state_name kw :
  add_state_info (add_state_info self state_name kw) state_name kw
    = add_state_info self state_name kw.
Proof.
  apply StateMachine_eq; try done.
  - apply map_eq. intros s. destruct (decide (s = state_name)) as [->|Hne].
    + rewrite !add_state_info_data. simpl.
      by rewrite (assoc_L (∪)), (idemp_L (∪)).
    + by rewrite !add_state_info_data_other.
  - apply add_state_info_order_known, add_state_info_registers.
Qed.

(** ** [add_transition] *)

Lemma find_transition_app_found transitions more si found :
  find_transition transitions si = Some found →
  find_transition (transitions ++ more) si = Some found.
Proof.
  induction transitions as [|U rest IH]; simpl; [done|].
  by case_decide.
Qed.

Lemma find_transition_app_none transitions more si :
  find_transition transitions si = None →
  find_transition (transitions ++ more) si = find_transition more si.
Proof.
  induction transitions as [|U rest IH]; simpl; [done|].
  by case_decide.
Qed.

(** X5.  What [add_transition] does to the tables: the new dictionary goes to
    the end of the transition list; each end that the state order does
    not know is appended to it, [from_state] first and a self-loop's
    state once, so known states keep their places; a new end starts with
    empty metadata and recorded metadata is left as it is. *)
Theorem add_transition_tables self transition_name from_state to_state
    callback kw :
  let self' :=
    add_transition self transition_name from_state to_state callback kw in
  _transitions self'
    = _transitions self
      ++ [Transition transition_name from_state to_state callback
            (foldr delete kw reserved_keys)]
  ∧ _state_order self'
      = _state_order self
        ++ new_endpoints (_state_order self) from_state to_state
  ∧ ∀ s,
      _state_data self' !! s
        = match _state_data self !! s with
          | Some m => Some m
          | None =>
              if decide (s = from_state ∨ s = to_state) then Some ∅ else None
          end.
Proof.
  intros self'. split_and!; [done| |].
  - change (_state_order self') with
      (_state_order
         (add_state_info (add_state_info self from_state ∅) to_state ∅)).
    unfold new_endpoints.
    destruct (decide (from_state ∈ _state_order self)) as [Hfrom|Hfrom].
    + destruct (decide (to_state ∈ _state_order self)) as [Hto|Hto].
      * rewrite decide_True by by left.
        rewrite !add_state_info_order_known, app_nil_r;
          by rewrite ?add_state_info_order_known.
      * destruct (decide (to_state = from_state)) as [->|Hne]; [done|].
        rewrite decide_False by by intros [?|?].
        rewrite add_state_info_order_fresh;
          by rewrite add_state_info_order_known.
    + destruct (decide (to_state = from_state)) as [->|Hne].
      * rewrite decide_True by by right.
        rewrite add_state_info_order_known by apply add_state_info_registers.
        by rewrite add_state_info_order_fresh.
      * destruct (decide (to_state ∈ _state_order self)) as [Hto|Hto].
        -- rewrite decide_True by by left.
           rewrite add_state_info_order_known.
           ++ by rewrite add_state_info_order_fresh.
           ++ rewrite add_state_info_order_fresh by done.
              apply elem_of_app. by left.
        -- rewrite decide_False by by intros [?|?].
           rewrite add_state_info_order_fresh.
           ++ rewrite add_state_info_order_fresh by done.
              by rewrite <-(assoc_L (++)).
           ++ rewrite add_state_info_order_fresh by done.
              rewrite elem_of_app, list_elem_of_singleton. by intros [?|?].
  - intros s.
    change (_state_data self') with
      (_state_data
         (add_state_info (add_state_info self from_state ∅) to_state ∅)).
    destruct (decide (s = to_state)) as [->|Hto].
    + rewrite add_state_info_data, (left_id_L ∅ (∪)).
      destruct (decide (to_state = from_state)) as [->|Hne].
      * rewrite add_state_info_data, (left_id_L ∅ (∪)).
        destruct (_state_data self !! from_state); simpl; [done|].
        by rewrite decide_True by by left.
      * rewrite add_state_info_data_other by done.
        destruct (_state_data self !! to_state); simpl; [done|].
        by rewrite decide_True by by right.
    + rewrite add_state_info_data_other by done.
      destruct (decide (s = from_state)) as [->|Hfrom].
      * rewrite add_state_info_data, (left_id_L ∅ (∪)).
        destruct (_state_data self !! from_state); simpl; [done|].
        by rewrite decide_True by by left.
      * rewrite add_state_info_data_other by done.
        destruct (_state_data self !! s); [done|].
        by rewrite decide_False by by intros [?|?].
Qed.

(** X6.  Adding a transition never changes what [execute] does for a pair
    (state, name) that the machine already serves: the record registered
    first keeps winning. *)
Theorem add_transition_keeps_lookups behaviour self transition_name
    from_state to_state callback kw name guards w A found :
  state_of self w = (Returned A, w) →
  find_transition (_transitions self) (A, name) = Some found →
  execute behaviour
    (add_transition self transition_name from_state to_state callback kw)
    name guards w
  = execute behaviour self name guards w.
Proof.
  intros Hstate%state_of_current Hfound.
  rewrite !execute_eval.
  change (current_state (add_transition _ _ _ _ _ _) (obj w))
    with (current_state self (obj w)).
  rewrite Hstate. simpl.
  by rewrite (find_transition_app_found _ _ _ _ Hfound), Hfound.
Qed.

Lemma add_transition_keeps_lookups_witness :
  execute Examples.behaviour
    (add_transition Examples.publication (VStr "submit") (VStr "draft")
       (VStr "published") (Some "veto") ∅)
    (VStr "submit") [] Examples.fresh
  = execute Examples.behaviour Examples.publication (VStr "submit") []
      Examples.fresh.
Proof.
  refine (add_transition_keeps_lookups Examples.behaviour Examples.publication
            (VStr "submit") (VStr "draft") (VStr "published") (Some "veto") ∅
            (VStr "submit") [] Examples.fresh (VStr "draft")
            (Transition (VStr "submit") (VStr "draft") (VStr "pending") None ∅)
            _ _).
  - vm_compute. reflexivity.
  - vm_compute. reflexivity.
Defined.

(** X7.  A pair (state, name) that no record serves makes [execute] raise;
    once a transition without callback is added for it, the same call,
    without guards, returns: the state attribute holds the new target,
    the rest of the context is as it was and nothing was called. *)
Theorem add_transition_then_execute behaviour self transition_name A
    to_state kw w :
  state_of self w = (Returned A, w) →
  Forall (λ U, key_of U ≠ (A, transition_name)) (_transitions self) →
  execute behaviour self transition_name [] w
    = (Raises (StateMachineError (NoTransitionUsing A transition_name)), w)
  ∧ execute behaviour
      (add_transition self transition_name A to_state None kw)
      transition_name [] w
    = (Returned (),
       World (<[state_attr self := to_state]> (obj w)) (calls w)).
Proof.
  intros Hstate%state_of_current Hnone.
  pose proof (find_transition_none _ _ Hnone) as Hfind.
  rewrite !execute_eval.
  change (current_state (add_transition _ _ _ _ _ _) (obj w))
    with (current_state self (obj w)).
  rewrite Hstate. simpl. rewrite Hfind. split; [done|].
  rewrite (find_transition_app_none _ _ _ Hfind). simpl.
  by rewrite decide_True.
Qed.

Lemma add_transition_then_execute_witness :
  execute Examples.behaviour Examples.publication (VStr "archive") []
    (Scenarios.titled "published")
    = (Raises
         (StateMachineError
            (NoTransitionUsing (VStr "published") (VStr "archive"))),
       Scenarios.titled "published")
  ∧ execute Examples.behaviour
      (add_transition Examples.publication (VStr "archive") (VStr "published")
         (VStr "archived") None ∅)
      (VStr "archive") [] (Scenarios.titled "published")
    = (Returned (),
       World (<["state" := VStr "archived"]>
                (obj (Scenarios.titled "published"))) []).
Proof.
  refine (add_transition_then_execute Examples.behaviour Examples.publication
            (VStr "archive") (VStr "published") (VStr "archived") ∅
            (Scenarios.titled "published") _ _).
  - vm_compute. reflexivity.
  - vm_compute. repeat constructor; discriminate.
Defined.

(** ** [transitions] and what [execute] accepts *)

Lemma transitions_eval self from_state w :
  transitions self from_state w
    = (Returned
         (filter
            (λ T, resolved_from_state self (obj w) from_state = t_from_state T)
            (_transitions self)),
       w).
Proof.
  unfold transitions, resolved_from_state.
  case_decide.
  - by rewrite (bind_returned _ _ _ _ _ (state_of_eval self w)).
  - done.
Qed.




(** ** Assembled machines *)

Lemma assembled_constructed self : assembled self → constructed self.
Proof. induction 1; by constructor. Qed.

Lemma assembled_endpoints self : assembled self → endpoints_registered self.
Proof.
  induction 1.
  - apply endpoints_registered_new.
  - by apply endpoints_registered_add_state_info.
  - by apply endpoints_registered_add_transition.
Qed.

(** X9.  On a machine assembled from an empty transition list, [state_info]
    and [transitions] agree: a record is listed by [transitions] exactly
    when it is listed in a descriptor of [state_info], and that
    descriptor is the one of the record's [to_state]. *)
Theorem state_info_covers_transitions self from_state w ts L :
  assembled self →
  transitions self from_state w = (Returned ts, w) →
  state_info self from_state w = (Returned L, w) →
  ∀ T,
    T ∈ ts
    ↔ ∃ D, D ∈ L ∧ d_name D = t_to_state T ∧ T ∈ d_transitions D.
Proof.
  intros Hself. rewrite transitions_eval.
  rewrite state_info_eval
    by by apply constructed_tables_ok, assembled_constructed.
  intros [= <-] [= <-] T.
  set (resolved := resolved_from_state self (obj w) from_state).
  rewrite list_elem_of_filter. split.
  - intros [Hfrom HT].
    exists (expected_descriptor self (current_state self (obj w)) resolved
              (t_to_state T)).
    split_and!; [|done|].
    + apply list_elem_of_fmap. eexists. split; [done|].
      pose proof (assembled_endpoints self Hself) as Hends.
      unfold endpoints_registered in Hends.
      rewrite Forall_forall in Hends. by apply Hends.
    + simpl. apply list_elem_of_filter. by split.
  - intros (D & (s & -> & Hs)%list_elem_of_fmap & Hname & HT).
    simpl in *. apply list_elem_of_filter in HT as [[Hfrom _] HT].
    by split.
Qed.

Lemma state_info_covers_transitions_witness :
  let approve :=
    Transition (VStr "approve") (VStr "pending") (VStr "published")
      (Some "set_published_at") ∅ in
  let L :=
    expected_descriptor Examples.publication (VStr "pending") (VStr "pending")
      <$> _state_order Examples.publication in
  ∃ D, D ∈ L ∧ d_name D = VStr "published" ∧ approve ∈ d_transitions D.
Proof.
  intros approve L.
  set (reject :=
         Transition (VStr "reject") (VStr "pending") (VStr "draft") None ∅).
  apply (proj1 (state_info_covers_transitions Examples.publication VNone
                  (Examples.in_state "pending") [approve; reject] L
                  (assembled_add_transition _ _ _ _ _ _
                     (assembled_add_transition _ _ _ _ _ _
                        (assembled_add_transition _ _ _ _ _ _
                           (assembled_new _ _ _))))
                  eq_refl eq_refl approve)).
  apply list_elem_of_here.
Defined.

(** ** Targets outside the state order *)

(** X10.  [transition_to_state] looks for its target among the states of the
    state order only: a target that is not there makes it raise
    [StateMachineError], the context untouched, whatever the transition
    list holds.  This is the fate of a machine whose transitions were
    handed to the constructor. *)
Theorem transition_to_state_unregistered_target behaviour self to_state
    guards skip_same w A :
  constructed self →
  state_of self w = (Returned A, w) →
  (A = to_state → skip_same = false) →
  to_state ∉ _state_order self →
  transition_to_state behaviour self to_state guards skip_same w
    = (Raises (StateMachineError (NoTransitionTo A to_state)), w).
Proof.
  intros Hok%constructed_tables_ok Hstate%state_of_current Hskip Hout.
  rewrite transition_to_state_eval; [|done|by rewrite Hstate].
  rewrite Hstate. unfold targeted. by rewrite decide_False.
Qed.

Lemma transition_to_state_unregistered_target_witness :
  Examples.go_b ∈ _transitions
                    (new_StateMachine "state" (Some [Examples.go_b]) (VStr "a")
                       None)
  ∧ transition_to_state Examples.behaviour
      (new_StateMachine "state" (Some [Examples.go_b]) (VStr "a") None)
      (VStr "b") [] true (Examples.in_state "a")
    = (Raises (StateMachineError (NoTransitionTo (VStr "a") (VStr "b"))),
       Examples.in_state "a").
Proof.
  split; [apply list_elem_of_here|].
  apply (transition_to_state_unregistered_target Examples.behaviour
           (new_StateMachine "state" (Some [Examples.go_b]) (VStr "a") None)
           (VStr "b") [] true (Examples.in_state "a") (VStr "a")).
  - apply constructed_new.
  - vm_compute. reflexivity.
  - discriminate.
  - apply not_elem_of_nil.
Defined.

(** X11.  On a machine assembled from an empty transition list every target of
    a registered transition is in the state order: when the current
    state differs from the target and [T] is the first registered
    transition between them, [transition_to_state] is [execute] with
    [T]'s name and the given guards. *)
Theorem transition_to_state_assembled behaviour self to_state guards
    skip_same w A before T after :
  assembled self →
  state_of self w = (Returned A, w) →
  A ≠ to_state →
  _transitions self = before ++ T :: after →
  Forall (λ U, ¬ goes A to_state U) before →
  goes A to_state T →
  to_state ∈ _state_order self
  ∧ transition_to_state behaviour self to_state guards skip_same w
      = execute behaviour self (t_name T) guards w.
Proof.
  intros Hself Hstate%state_of_current Hne Htrans Hbefore HT.
  assert (Hin : to_state ∈ _state_order self).
  { pose proof (assembled_endpoints self Hself) as Hends.
    unfold endpoints_registered in Hends. rewrite Forall_forall in Hends.
    destruct HT as [_ <-]. apply Hends. rewrite Htrans.
    apply elem_of_app. right. apply list_elem_of_here. }
  split; [done|].
  rewrite transition_to_state_eval;
    [|by apply constructed_tables_ok, assembled_constructed
     |by rewrite Hstate].
  rewrite Hstate. unfold targeted. rewrite decide_True by done.
  by rewrite Htrans, (filter_first (goes A to_state)).
Qed.

Lemma transition_to_state_assembled_witness :
  VStr "published" ∈ _state_order Examples.publication
  ∧ transition_to_state Examples.behaviour Examples.publication
      (VStr "published") ["check"] true (Examples.in_state "pending")
    = execute Examples.behaviour Examples.publication (VStr "approve")
        ["check"] (Examples.in_state "pending").
Proof.
  refine (transition_to_state_assembled Examples.behaviour
            Examples.publication (VStr "published") ["check"] true
            (Examples.in_state "pending") (VStr "pending")
            [Transition (VStr "submit") (VStr "draft") (VStr "pending") None ∅]
            (Transition (VStr "approve") (VStr "pending") (VStr "published")
               (Some "set_published_at") ∅)
            [Transition (VStr "reject") (VStr "pending") (VStr "draft") None ∅]
            _ _ _ _ _ _).
  - repeat apply assembled_add_transition. apply assembled_new.
  - vm_compute. reflexivity.
  - discriminate.
  - vm_compute. reflexivity.
  - repeat constructor; intros [Hfrom Hto]; discriminate.
  - split; reflexivity.
Defined.

(** ** The errors of the engine itself *)

Lemma find_transition_none_inv transitions si :
  find_transition transitions si = None →
  Forall (λ T, key_of T ≠ si) transitions.
Proof.
  induction transitions as [|U rest IH]; simpl; [constructor|].
  case_decide; [done|]. intros Hrest. constructor; [done|by apply IH].
Qed.

(** A raising [execute] either found no record and touched nothing, or
    found one and raised out of a callable it called. *)
Lemma execute_raises_inv behaviour self name guards w e w' :
  execute behaviour self name guards w = (Raises e, w') →
  (find_transition (_transitions self) (current_state self (obj w), name)
     = None
   ∧ e = StateMachineError
           (NoTransitionUsing (current_state self (obj w)) name)
   ∧ w' = w)
  ∨ (∃ found fs,
       find_transition (_transitions self) (current_state self (obj w), name)
         = Some found
       ∧ fs ≠ []
       ∧ calls w' = calls w ++ calls_of fs found).
Proof.
  rewrite execute_eval. simpl.
  destruct (find_transition _ _) as [found|]; [|intros [= <- <-]; by left].
  intros Hrun. right. exists found. revert Hrun.
  unfold mbind at 1, M_bind at 1.
  pose proof (run_guards_calls behaviour guards found w) as (n & Hg & _ & Hn).
  destruct (run_guards behaviour guards found w) as [[[]|e1] w1]; simpl in *.
  - unfold mbind at 1, M_bind at 1. unfold run_callback.
    destruct (t_callback found) as [cb|]; [|done].
    pose proof (invoke_calls behaviour cb found w1) as Hcb.
    destruct (invoke behaviour cb found w1) as [[[]|e2] w2]; [done|].
    intros [= <- <-]. exists (take n guards ++ [cb]).
    split_and!; [done|by destruct (take n guards)|].
    simpl in Hcb. rewrite Hcb, Hg. unfold calls_of.
    by rewrite fmap_app, (assoc_L (++)).
  - intros [= <- <-]. exists (take n guards).
    split_and!; [done| |done].
    specialize (Hn e1 eq_refl). destruct guards; simpl in *; [lia|].
    destruct n; [lia|done].
Qed.

(** X12.  The only error that [transition_to_state] raises on its own account
    is the one for a missing direct transition: when it raises without
    any guard or callback having been called, the error is
    [StateMachineError] for (current state, target) and the context is
    untouched.  The lookup that [execute] repeats cannot fail, since the
    record that was picked serves its own name. *)
Theorem transition_to_state_own_error behaviour self to_state guards
    skip_same w A e w' :
  constructed self →
  state_of self w = (Returned A, w) →
  transition_to_state behaviour self to_state guards skip_same w
    = (Raises e, w') →
  calls w' = calls w →
  e = StateMachineError (NoTransitionTo A to_state) ∧ w' = w.
Proof.
  intros Hok%constructed_tables_ok Hstate%state_of_current Hraise Hcalls.
  destruct (decide (A = to_state ∧ skip_same = true)) as [[-> ->]|Hskip].
  { unfold transition_to_state in Hraise.
    rewrite (bind_returned _ _ _ _ _ (state_of_eval self w)) in Hraise.
    by rewrite Hstate, bool_decide_eq_true_2 in Hraise. }
  rewrite transition_to_state_eval in Hraise; [|done|].
  2:{ rewrite Hstate. intros ->. destruct skip_same; [|done].
      by destruct Hskip. }
  rewrite Hstate in Hraise. unfold targeted in Hraise.
  case_decide; [|by injection Hraise as <- <-].
  destruct (filter (goes A to_state) (_transitions self)) as [|T others]
    eqn:Hfilter; [by injection Hraise as <- <-|].
  apply filter_cons_inv in Hfilter as (before & after & Htrans & _ & HT).
  apply execute_raises_inv in Hraise
    as [(Hnone & _ & _)|(found & fs & _ & Hfs & Hgrow)].
  - exfalso. apply find_transition_none_inv in Hnone.
    rewrite Forall_forall in Hnone. apply (Hnone T).
    + rewrite Htrans. apply elem_of_app. right. apply list_elem_of_here.
    + rewrite Hstate. by destruct HT as [<- _].
  - exfalso. rewrite Hcalls in Hgrow.
    rewrite <-(app_nil_r (calls w)) in Hgrow at 1.
    apply app_inv_head in Hgrow. by destruct fs.
Qed.

Lemma transition_to_state_own_error_witness :
  ∃ e w',
    transition_to_state Examples.behaviour Examples.publication
      (VStr "published") ["check"] false Examples.fresh = (Raises e, w')
    ∧ e = StateMachineError (NoTransitionTo (VStr "draft") (VStr "published"))
    ∧ w' = Examples.fresh.
Proof.
  exists (StateMachineError (NoTransitionTo (VStr "draft") (VStr "published"))),
    Examples.fresh.
  assert (Hrun :
    transition_to_state Examples.behaviour Examples.publication
      (VStr "published") ["check"] false Examples.fresh
      = (Raises
           (StateMachineError
              (NoTransitionTo (VStr "draft") (VStr "published"))),
         Examples.fresh)).
  { vm_compute. reflexivity. }
  split; [exact Hrun|].
  refine (transition_to_state_own_error Examples.behaviour
            Examples.publication (VStr "published") ["check"] false
            Examples.fresh (VStr "draft") _ _ _ _ Hrun _).
  - repeat apply constructed_add_transition. apply constructed_new.
  - vm_compute. reflexivity.
  - reflexivity.
Defined.

(** ** Flags and titles in [state_info] *)

Lemma current_flags_count self context_state from_state order :
  NoDup order →
  length
    (filter (λ D, d_current D = true)
       (expected_descriptor self context_state from_state <$> order))
  = if decide (context_state ∈ order) then 1 else 0.
Proof.
  induction 1 as [|s order Hs _ IH]; [done|].
  rewrite fmap_cons.
  destruct (decide (s = context_state)) as [->|Hne].
  - rewrite filter_cons_True by (simpl; by rewrite bool_decide_eq_true_2).
    rewrite decide_True by apply list_elem_of_here.
    simpl. rewrite IH. by rewrite decide_False.
  - rewrite filter_cons_False
      by (simpl; by rewrite bool_decide_eq_false_2).
    rewrite IH.
    destruct (decide (context_state ∈ order)) as [Hin|Hin].
    + rewrite decide_True; [done|]. by apply list_elem_of_further.
    + rewrite decide_False; [done|].
      intros [?|?]%elem_of_cons; congruence.
Qed.

Lemma initial_flags_count self context_state from_state order :
  NoDup order →
  length
    (filter (λ D, d_initial D = true)
       (expected_descriptor self context_state from_state <$> order))
  = if decide (initial_state self ∈ order) then 1 else 0.
Proof.
  induction 1 as [|s order Hs _ IH]; [done|].
  rewrite fmap_cons.
  destruct (decide (s = initial_state self)) as [Heq|Hne].
  - rewrite filter_cons_True by (simpl; by rewrite bool_decide_eq_true_2).
    rewrite decide_True by (rewrite <-Heq; apply list_elem_of_here).
    simpl. rewrite IH. rewrite decide_False; [done|]. by rewrite <-Heq.
  - rewrite filter_cons_False
      by (simpl; by rewrite bool_decide_eq_false_2).
    rewrite IH.
    destruct (decide (initial_state self ∈ order)) as [Hin|Hin].
    + rewrite decide_True; [done|]. by apply list_elem_of_further.
    + rewrite decide_False; [done|].
      intros [?|?]%elem_of_cons; congruence.
Qed.

(** X13.  Among the descriptors of [state_info] at most one is flagged
    [current] and at most one [initial]: exactly one when the context's
    state, respectively the initial state, is in the state order, and
    none otherwise. *)
Theorem state_info_flags self from_state w A L :
  constructed self →
  state_of self w = (Returned A, w) →
  state_info self from_state w = (Returned L, w) →
  length (filter (λ D, d_current D = true) L)
    = (if decide (A ∈ _state_order self) then 1 else 0)
  ∧ length (filter (λ D, d_initial D = true) L)
      = (if decide (initial_state self ∈ _state_order self) then 1 else 0).
Proof.
  intros Hok%constructed_tables_ok Hstate%state_of_current.
  rewrite state_info_eval by done. intros [= <-].
  destruct Hok as [Hnodup _]. rewrite Hstate. split.
  - by apply current_flags_count.
  - by apply initial_flags_count.
Qed.

Lemma state_info_flags_witness :
  let L :=
    expected_descriptor Examples.publication (VStr "archived") (VStr "archived")
      <$> _state_order Examples.publication in
  length (filter (λ D, d_current D = true) L) = 0
  ∧ length (filter (λ D, d_initial D = true) L) = 1.
Proof.
  intros L.
  refine (state_info_flags Examples.publication VNone
            (Examples.in_state "archived") (VStr "archived") L _ _ _).
  - repeat apply constructed_add_transition. apply constructed_new.
  - vm_compute. reflexivity.
  - vm_compute. reflexivity.
Defined.

(** X14.  A title registered with [add_state_info] is the title that
    [state_info] then reports for the state, and the descriptor's data
    holds all the registered pairs. *)
Theorem state_info_shows_title self state_name kw title from_state w :
  constructed self →
  kw !! "title" = Some title →
  ∃ L D,
    state_info (add_state_info self state_name kw) from_state w
      = (Returned L, w)
    ∧ D ∈ L
    ∧ d_name D = state_name
    ∧ d_title D = title
    ∧ kw ⊆ d_data D.
Proof.
  intros Hself Htitle.
  assert (Hok : tables_ok (add_state_info self state_name kw))
    by by apply constructed_tables_ok, constructed_add_state_info.
  eexists _, (expected_descriptor (add_state_info self state_name kw) _ _
                state_name).
  split; [by apply state_info_eval|].
  pose proof (add_state_info_data self state_name kw) as Hdata.
  split_and!.
  - apply list_elem_of_fmap. eexists. split; [done|].
    apply add_state_info_registers.
  - done.
  - unfold expected_descriptor; cbn [d_title].
    rewrite (lookup_total_correct _ _ _ Hdata).
    by rewrite (lookup_union_Some_l _ _ _ _ Htitle).
  - unfold expected_descriptor; cbn [d_data].
    rewrite (lookup_total_correct _ _ _ Hdata).
    apply map_union_subseteq_l.
Qed.

Lemma state_info_shows_title_witness :
  ∃ L D,
    state_info
      (add_state_info Examples.publication (VStr "pending")
         {[ "title" := VStr "Pending review" ]})
      VNone Examples.fresh = (Returned L, Examples.fresh)
    ∧ D ∈ L
    ∧ d_name D = VStr "pending"
    ∧ d_title D = VStr "Pending review"
    ∧ ({[ "title" := VStr "Pending review" ]} : metadata) ⊆ d_data D.
Proof.
  apply (state_info_shows_title Examples.publication (VStr "pending")
           {[ "title" := VStr "Pending review" ]} (VStr "Pending review")
           VNone Examples.fresh).
  - repeat apply constructed_add_transition. apply constructed_new.
  - reflexivity.
Defined.

(** ** What [execute] writes *)






(** ** A machine without transitions *)

(** X16.  On a machine fresh from the constructor, with no transition list
    given, nothing can be executed and nothing is listed: [execute]
    raises [StateMachineError] for every name, [transitions] and
    [state_info] return empty lists, and [transition_to_state] raises
    unless it is asked, with [skip_same], for the state the context is
    in.  The context is untouched throughout. *)
Theorem new_machine_serves_nothing behaviour state_attr initial_state
    initializer name from_state to_state guards skip_same w :
  let self := new_StateMachine state_attr None initial_state initializer in
  let A := default initial_state (obj w !! state_attr) in
  execute behaviour self name guards w
    = (Raises (StateMachineError (NoTransitionUsing A name)), w)
  ∧ transitions self from_state w = (Returned [], w)
  ∧ state_info self from_state w = (Returned [], w)
  ∧ transition_to_state behaviour self to_state guards skip_same w
      = (if bool_decide (A = to_state) && skip_same then (Returned (), w)
         else (Raises (StateMachineError (NoTransitionTo A to_state)), w)).
Proof.
  intros self A. split_and!.
  - by rewrite execute_eval.
  - by rewrite transitions_eval.
  - by rewrite state_info_eval by apply tables_ok_new.
  - unfold transition_to_state.
    rewrite (bind_returned _ _ _ _ _ (state_of_eval self w)).
    change (current_state self (obj w)) with A.
    destruct (bool_decide (A = to_state) && skip_same); [done|].
    by rewrite (bind_returned _ _ _ _ _
                  (state_info_eval self VNone w (tables_ok_new _ _ _ _))).
Qed.

(** ** The invariant of the state tables *)

(** X17.  Whatever sequence of [add_state_info] and [add_transition] calls
    built the machine, the state order holds no state twice and holds
    exactly the states that have a metadata entry, so that [state_info]
    finds the metadata of every state it enumerates and returns. *)
Theorem state_tables_invariant self from_state w :
  constructed self →
  NoDup (_state_order self)
  ∧ dom (_state_data self) = list_to_set (_state_order self)
  ∧ ∃ L,
      state_info self from_state w = (Returned L, w)
      ∧ length L = length (_state_order self).
Proof.
  intros [Hnodup Hdom]%constructed_tables_ok. split_and!.
  - done.
  - apply set_eq. intros s.
    by rewrite elem_of_dom, elem_of_list_to_set, Hdom.
  - eexists. split; [by apply state_info_eval|].
    by rewrite length_fmap.
Qed.

Lemma state_tables_invariant_witness :
  NoDup (_state_order Examples.shadowed_loop)
  ∧ dom (_state_data Examples.shadowed_loop)
      = list_to_set (_state_order Examples.shadowed_loop)
  ∧ ∃ L,
      state_info Examples.shadowed_loop VNone Examples.fresh
        = (Returned L, Examples.fresh)
      ∧ length L = length (_state_order Examples.shadowed_loop).
Proof.
  apply (state_tables_invariant Examples.shadowed_loop VNone Examples.fresh).
  repeat apply constructed_add_transition. apply constructed_new.
Defined.
